(** * temp-mail: the alias life cycle of [main.go], embedded and verified

    The program keeps one SQLite table, [emails], and drives it from six
    HTTP handlers and a background sweeper; every mail alias is backed by a
    forwarding rule held by Cloudflare.  This file embeds

    - the table as a finite map from the primary key [id] to the other
      columns, and every SQL statement of the source as a function on it;
    - the Cloudflare client ([callCFAPI] and its three wrappers) over an
      oracle for the HTTP exchange;
    - the handlers and [checkExpiredEmails] by explicit state passing:
      each takes the environment and the table and returns the HTTP
      response and the table it leaves behind;
    - histories (sequences of requests and ticks) and the worker's loop as
      folds of these, and the requests that each operation sends to
      Cloudflare.

    Modelling conventions.
    - Time stamps are whole seconds (the resolution of SQLite's
      [datetime()]), as [Z]; one hour is [3600].
    - [expires_at] is a nullable column: [initDB] adds it to older
      databases with [ALTER TABLE], which leaves [NULL] in the rows that
      were already there, and [handleIndex] reads it through [IFNULL].
      It is an [option Z].  The other columns are always written by the
      program's own [INSERT] and are plain values.
    - The [id] query parameter is compared with the integer column [id];
      a request is represented by the integer it denotes (a parameter that
      denotes none matches no row, like an integer that is no key).
    - The database file itself is taken to work: a statement has its SQL
      meaning.  The results of [db.Exec] that the source drops are dropped
      here too. *)

From stdpp Require Import gmap strings list fin_maps sorting.
From Stdlib Require Import ZArith Lia Ascii.

Local Open Scope string_scope.
Local Open Scope Z_scope.

(** ** Data *)

(** A row of [emails] without its key:
    [alias TEXT NOT NULL, rule_id TEXT, created_at DATETIME,
     expires_at DATETIME, status TEXT]. *)
Record EmailRow := mkRow {
  alias      : string;
  rule_id    : string;
  created_at : Z;
  expires_at : option Z;
  status     : string
}.

(** The table: [id INTEGER PRIMARY KEY AUTOINCREMENT] is the key. *)
Abbreviation Emails := (gmap Z EmailRow).

(** [type EmailEntry struct], what [handleIndex] scans a row into. *)
Record EmailEntry := mkEntry {
  ID        : Z;
  Alias     : string;
  RuleID    : string;
  CreatedAt : Z;
  ExpiresAt : Z;
  Status    : string
}.

Record CFMatcher := mkMatcher { MType : string; MField : string; MValue : string }.
Record CFAction := mkAction { AType : string; AValue : list string }.

Record CFRequest := mkCFRequest {
  Matchers : list CFMatcher;
  Actions  : list CFAction;
  Enabled  : bool;
  Name     : string
}.

(** [CFResponse] after [json.Unmarshal]; [Errors] keeps the messages. *)
Record CFResponse := mkCFResponse {
  Success  : bool;
  ResultID : string;
  Errors   : list string
}.

(** The [body interface{}] arguments that reach [callCFAPI]; [nil] is
    [None] at the call. *)
Inductive Payload :=
  | RuleBody (req : CFRequest)
  | EnabledBody (enabled : bool).

(** The Go [error] values that occur. *)
Inductive error :=
  | ErrTransport (msg : string)
  | ErrCloudflare (msg : string)
  | ErrUnknownCloudflare
  | ErrNoRows
  | ErrTemplate.

(** What a handler writes to its [http.ResponseWriter]: [http.Redirect],
    [http.Error] (a fixed text followed by [err.Error()] when there is an
    error value) or the rendered list. *)
Inductive Response :=
  | Redirect (url : string) (code : Z)
  | HttpError (text : string) (err : option error) (code : Z)
  | Page (emails : list EmailEntry).

Definition is_error (r : Response) : bool :=
  match r with HttpError _ _ _ => true | _ => false end.

(** Everything a call reads from outside the table. *)
Record Env := mkEnv {
  getenv      : string → string;
  (** [client.Do] followed by decoding the body: the transport error, or
      the decoded reply (the zero reply when the body is not JSON). *)
  client_do   : string → string → option Payload → string + CFResponse;
  (** the successive results of [rand.Intn(len(letters))] *)
  rand_intn   : nat → nat;
  (** [time.Now()] *)
  time_now    : Z;
  (** SQLite's clock: [datetime('now')] and [CURRENT_TIMESTAMP] *)
  sql_now     : Z;
  (** whether [template.ParseFiles] succeeds *)
  template_ok : bool
}.

Definition hour : Z := 3600.

(** ** The Cloudflare client *)

Definition rules_url (env : Env) : string :=
  "https://api.cloudflare.com/client/v4/zones/" +:+ getenv env "CF_ZONE_ID"
    +:+ "/email/routing/rules".

Definition callCFAPI (env : Env) (method url : string) (body : option Payload)
  : string * option error :=
  match client_do env method url body with
  | inl msg => ("", Some (ErrTransport msg))
  | inr cfResp =>
      if negb (Success cfResp) && negb (bool_decide (method = "DELETE")) then
        match Errors cfResp with
        | msg :: _ => ("", Some (ErrCloudflare msg))
        | [] => ("", Some ErrUnknownCloudflare)
        end
      else (ResultID cfResp, None)
  end.

Definition createCFRule (env : Env) (email : string) (enabled : bool)
  : string * option error :=
  let dest := getenv env "CF_DESTINATION_EMAIL" in
  let reqBody :=
    {| Matchers := [ mkMatcher "literal" "to" email ];
       Actions  := [ mkAction "forward" [dest] ];
       Enabled  := enabled;
       Name     := "TempMail-" +:+ email |} in
  callCFAPI env "POST" (rules_url env) (Some (RuleBody reqBody)).

Definition updateCFRule (env : Env) (ruleID : string) (enabled : bool)
  : option error :=
  (callCFAPI env "PATCH" (rules_url env +:+ "/" +:+ ruleID)
     (Some (EnabledBody enabled))).2.

Definition deleteCFRule (env : Env) (ruleID : string) : option error :=
  (callCFAPI env "DELETE" (rules_url env +:+ "/" +:+ ruleID) None).2.

(** ** Random alias prefixes *)

Definition letters : string := "abcdefghijklmnopqrstuvwxyz0123456789".

Definition letter_at (k : nat) : Ascii.ascii :=
  default "a"%char (String.get k letters).

Fixpoint string_of_bytes (b : list Ascii.ascii) : string :=
  match b with
  | [] => EmptyString
  | c :: b' => String c (string_of_bytes b')
  end.

Definition generateRandomString (env : Env) (n : nat) : string :=
  string_of_bytes
    ((λ i, letter_at (rand_intn env i `mod` String.length letters)%nat) <$> seq 0 n).

(** ** The SQL statements *)

Definition set_deleted (r : EmailRow) : EmailRow :=
  {| alias := alias r; rule_id := ""; created_at := created_at r;
     expires_at := expires_at r; status := "deleted" |}.

Definition set_status (s : string) (r : EmailRow) : EmailRow :=
  {| alias := alias r; rule_id := rule_id r; created_at := created_at r;
     expires_at := expires_at r; status := s |}.

Definition set_recreated (ruleID : string) (expiresAt : Z) (r : EmailRow) : EmailRow :=
  {| alias := alias r; rule_id := ruleID; created_at := created_at r;
     expires_at := Some expiresAt; status := "active" |}.

(** [SET expires_at = datetime(expires_at, '+1 hour')]; [datetime] of
    [NULL] is [NULL]. *)
Definition plus_one_hour (r : EmailRow) : EmailRow :=
  {| alias := alias r; rule_id := rule_id r; created_at := created_at r;
     expires_at := (λ t, t + hour) <$> expires_at r; status := status r |}.

(** [UPDATE emails SET status = 'deleted', rule_id = '' WHERE id = ?] *)
Definition sql_mark_deleted (id : Z) (db : Emails) : Emails :=
  alter set_deleted id db.

(** [UPDATE emails SET status = ? WHERE id = ?] *)
Definition sql_update_status (newStatus : string) (id : Z) (db : Emails) : Emails :=
  alter (set_status newStatus) id db.

(** [UPDATE emails SET expires_at = datetime(expires_at, '+1 hour')
     WHERE id = ? AND status = 'active'] *)
Definition sql_renew (id : Z) (db : Emails) : Emails :=
  alter (λ r, if decide (status r = "active") then plus_one_hour r else r) id db.

(** [UPDATE emails SET status = 'active', rule_id = ?, expires_at = ?
     WHERE id = ?] *)
Definition sql_recreate (ruleID : string) (expiresAt : Z) (id : Z) (db : Emails) : Emails :=
  alter (set_recreated ruleID expiresAt) id db.

(** The key [AUTOINCREMENT] gives the next row: one more than the largest
    key (rows are never removed, so the largest key ever used is the
    largest key present); [1] in an empty table. *)
Definition max_id (db : Emails) : Z :=
  foldr Z.max 0 (map_to_list db).*1.

Definition next_id (db : Emails) : Z := max_id db + 1.

(** [INSERT INTO emails (alias, rule_id, status, expires_at)
     VALUES (?, ?, 'active', ?)]; [created_at] takes its default,
    [CURRENT_TIMESTAMP]. *)
Definition sql_insert (now : Z) (fullEmail ruleID : string) (expiresAt : Z)
    (db : Emails) : Emails :=
  <[ next_id db :=
       {| alias := fullEmail; rule_id := ruleID; created_at := now;
          expires_at := Some expiresAt; status := "active" |} ]> db.

(** [expires_at < datetime('now')]: a comparison with [NULL] selects
    nothing. *)
Definition before (now : Z) (e : option Z) : Prop :=
  match e with Some t => t < now | None => False end.

#[global] Instance before_dec now e : Decision (before now e).
Proof. destruct e; simpl; apply _. Defined.

Definition expired_active (now : Z) (row : Z * EmailRow) : Prop :=
  status row.2 = "active" ∧ before now (expires_at row.2).

#[global] Instance expired_active_dec now row : Decision (expired_active now row).
Proof. unfold expired_active; apply _. Defined.

(** [SELECT id, rule_id, alias FROM emails
     WHERE status = 'active' AND expires_at < datetime('now')];
    the spec's [listExpiredActive(now)]. *)
Definition listExpiredActive (now : Z) (db : Emails) : list (Z * EmailRow) :=
  filter (expired_active now) (map_to_list db).

(** [ORDER BY CASE WHEN status='active' THEN 1 ELSE 2 END, created_at DESC] *)
Definition rank (e : EmailEntry) : Z :=
  if decide (Status e = "active") then 1 else 2.

Definition listing_le (a b : EmailEntry) : Prop :=
  rank a < rank b ∨ (rank a = rank b ∧ CreatedAt b ≤ CreatedAt a).

#[global] Instance listing_le_dec a b : Decision (listing_le a b).
Proof. unfold listing_le; apply _. Defined.

(** [rows.Scan(&e.ID, &e.Alias, &e.RuleID, &e.CreatedAt, &e.ExpiresAt,
     &e.Status)] on the columns
    [id, alias, rule_id, created_at, IFNULL(expires_at, created_at), status]. *)
Definition scan_entry (row : Z * EmailRow) : EmailEntry :=
  {| ID := row.1; Alias := alias row.2; RuleID := rule_id row.2;
     CreatedAt := created_at row.2;
     ExpiresAt := default (created_at row.2) (expires_at row.2);
     Status := status row.2 |}.

(** The query of [handleIndex]; the spec's [listAll].  SQL leaves the
    order of rows with equal keys open; the sort used here fixes one. *)
Definition listAll (db : Emails) : list EmailEntry :=
  merge_sort listing_le (scan_entry <$> map_to_list db).

(** ** The sweeper *)

(** One turn of the loop of [checkExpiredEmails] on a selected row: the
    rule is removed at Cloudflare when there is one (the result of
    [deleteCFRule] is dropped), then the row is marked.  [rows.Scan] reads
    three columns that are never [NULL], so the [continue] is not taken. *)
Definition expire_row (env : Env) (db : Emails) (row : Z * EmailRow) : Emails :=
  let id := row.1 in
  let ruleID := rule_id row.2 in
  let _dropped := if decide (ruleID ≠ "") then deleteCFRule env ruleID else None in
  sql_mark_deleted id db.

Definition checkExpiredEmails (env : Env) (db : Emails) : Emails :=
  foldl (expire_row env) db (listExpiredActive (sql_now env) db).

(** ** The handlers

    Each handler follows its source line by line.  [handleGenerate] is the
    only one that looks at the result of its write; with a working
    database file that [INSERT] succeeds, so its error branch does not
    appear.  [handleRenew] only logs the result of its [UPDATE]. *)

Definition handleIndex (env : Env) (db : Emails) : Response * Emails :=
  if template_ok env then (Page (listAll db), db)
  else (HttpError "" (Some ErrTemplate) 500, db).

(** [fullEmail] in [handleGenerate]:
    [fmt.Sprintf("%s@%s", generateRandomString(8), os.Getenv("CF_EMAIL_DOMAIN"))]. *)
Definition new_address (env : Env) : string :=
  let aliasPrefix := generateRandomString env 8 in
  let domain := getenv env "CF_EMAIL_DOMAIN" in
  aliasPrefix +:+ "@" +:+ domain.

Definition handleGenerate (env : Env) (method : string) (db : Emails)
  : Response * Emails :=
  if decide (method ≠ "POST") then (HttpError "Method not allowed" None 405, db)
  else
    let fullEmail := new_address env in
    match createCFRule env fullEmail true with
    | (_, Some err) => (HttpError "Erro Cloudflare: " (Some err) 500, db)
    | (ruleID, None) =>
        let expiresAt := time_now env + hour in
        (Redirect "/" 303, sql_insert (sql_now env) fullEmail ruleID expiresAt db)
    end.

Definition handleRenew (env : Env) (id : Z) (db : Emails) : Response * Emails :=
  (Redirect "/" 303, sql_renew id db).

Definition handleToggle (env : Env) (id : Z) (db : Emails) : Response * Emails :=
  match db !! id with
  | None => (HttpError "" (Some ErrNoRows) 500, db)
  | Some r =>
      let ruleID := rule_id r in
      let '(newStatus, cfEnabled) :=
        if decide (status r = "active") then ("inactive", false)
        else ("active", true) in
      match updateCFRule env ruleID cfEnabled with
      | Some err => (HttpError "Erro ao atualizar CF: " (Some err) 500, db)
      | None => (Redirect "/" 303, sql_update_status newStatus id db)
      end
  end.

(** [cfEnabled] as [handleToggle] computes it from the stored status. *)
Definition toggle_enables (r : EmailRow) : bool :=
  if decide (status r = "active") then false else true.

Definition handleDelete (env : Env) (id : Z) (db : Emails) : Response * Emails :=
  let ruleID := from_option rule_id "" (db !! id) in
  let _dropped := if decide (ruleID ≠ "") then deleteCFRule env ruleID else None in
  (Redirect "/" 303, sql_mark_deleted id db).

Definition handleRecreate (env : Env) (id : Z) (db : Emails) : Response * Emails :=
  let alias' := from_option alias "" (db !! id) in
  match createCFRule env alias' true with
  | (_, Some err) => (HttpError "Erro ao recriar: " (Some err) 500, db)
  | (ruleID, None) =>
      let expiresAt := time_now env + hour in
      (Redirect "/" 303, sql_recreate ruleID expiresAt id db)
  end.

(** ** Operations

    What can happen to the table: one of the mutating requests, or a tick
    of the ticker in [startCleanupWorker]. *)
Inductive Op :=
  | OpGenerate (method : string)
  | OpRenew (id : Z)
  | OpToggle (id : Z)
  | OpDelete (id : Z)
  | OpRecreate (id : Z)
  | OpTick.

(** The response (a tick has none) and the table afterwards. *)
Definition run (env : Env) (op : Op) (db : Emails) : option Response * Emails :=
  match op with
  | OpGenerate method => prod_map Some id (handleGenerate env method db)
  | OpRenew i => prod_map Some id (handleRenew env i db)
  | OpToggle i => prod_map Some id (handleToggle env i db)
  | OpDelete i => prod_map Some id (handleDelete env i db)
  | OpRecreate i => prod_map Some id (handleRecreate env i db)
  | OpTick => (None, checkExpiredEmails env db)
  end.

(** Whether the operation was answered with an [http.Error]. *)
Definition failed (env : Env) (op : Op) (db : Emails) : bool :=
  from_option is_error false (run env op db).1.

(** ** Sequences of operations *)

(** The requests and ticks are serialised by the database; a history is
    the list of operations in the order they took effect, each with the
    environment it ran in. *)
Definition run_all (steps : list (Env * Op)) (db : Emails) : Emails :=
  foldl (λ d step, (run step.1 step.2 d).2) db steps.

(** [startCleanupWorker]: [for range ticker.C { checkExpiredEmails() }].
    The loop does not end; this is what it has done to the table after the
    ticks listed, each with its environment, when nothing else writes in
    between. *)
Definition startCleanupWorker (ticks : list Env) (db : Emails) : Emails :=
  foldl (λ d env, checkExpiredEmails env d) db ticks.

(** The tables the program builds from the empty table that [initDB]
    creates. *)
Definition reachable (db : Emails) : Prop :=
  ∃ steps, db = run_all steps ∅.

(** ** The requests sent to Cloudflare

    [callCFAPI] sends one request per call: [http.NewRequest(method, url,
    bodyReader)] followed by [client.Do].  The definitions below list, for
    each operation, the requests it sends, in order. *)
Record CFCall := mkCall {
  CallMethod : string;
  CallURL    : string;
  CallBody   : option Payload
}.

(** The request of [createCFRule], [updateCFRule] and [deleteCFRule]. *)
Definition create_call (env : Env) (email : string) (enabled : bool) : CFCall :=
  let dest := getenv env "CF_DESTINATION_EMAIL" in
  let reqBody :=
    {| Matchers := [ mkMatcher "literal" "to" email ];
       Actions  := [ mkAction "forward" [dest] ];
       Enabled  := enabled;
       Name     := "TempMail-" +:+ email |} in
  mkCall "POST" (rules_url env) (Some (RuleBody reqBody)).

Definition update_call (env : Env) (ruleID : string) (enabled : bool) : CFCall :=
  mkCall "PATCH" (rules_url env +:+ "/" +:+ ruleID) (Some (EnabledBody enabled)).

Definition delete_call (env : Env) (ruleID : string) : CFCall :=
  mkCall "DELETE" (rules_url env +:+ "/" +:+ ruleID) None.

(** What [callCFAPI] returns for a request. *)
Definition answer (env : Env) (c : CFCall) : string * option error :=
  callCFAPI env (CallMethod c) (CallURL c) (CallBody c).

(** The loop of [checkExpiredEmails] with the requests it sends: one turn
    sends the delete request when the row has a rule id, then marks the
    row. *)
Definition expire_row_traced (env : Env) (acc : Emails * list CFCall)
    (row : Z * EmailRow) : Emails * list CFCall :=
  let ruleID := rule_id row.2 in
  let sent := if decide (ruleID ≠ "") then [delete_call env ruleID] else [] in
  (sql_mark_deleted row.1 acc.1, (acc.2 ++ sent)%list).

Definition checkExpiredEmails_traced (env : Env) (db : Emails)
  : Emails * list CFCall :=
  foldl (expire_row_traced env) (db, []) (listExpiredActive (sql_now env) db).

(** The requests of one operation. *)
Definition calls (env : Env) (op : Op) (db : Emails) : list CFCall :=
  match op with
  | OpGenerate method =>
      if decide (method ≠ "POST") then []
      else [create_call env (new_address env) true]
  | OpRenew _ => []
  | OpToggle i =>
      match db !! i with
      | None => []
      | Some r => [update_call env (rule_id r) (toggle_enables r)]
      end
  | OpDelete i =>
      let ruleID := from_option rule_id "" (db !! i) in
      if decide (ruleID ≠ "") then [delete_call env ruleID] else []
  | OpRecreate i => [create_call env (from_option alias "" (db !! i)) true]
  | OpTick => (checkExpiredEmails_traced env db).2
  end.

(** ** What can happen to a stored row

    The five [UPDATE] statements of the source, as changes of one row:
    [handleDelete] and the sweeper mark it, [handleToggle] disables an
    ['active'] row and enables any other, [handleRenew] moves the expiry
    of an ['active'] row, [handleRecreate] resets it. *)
Inductive row_change (env : Env) : EmailRow → EmailRow → Prop :=
  | change_none r :
      row_change env r r
  | change_deleted r :
      row_change env r (set_deleted r)
  | change_disabled r :
      status r = "active" → row_change env r (set_status "inactive" r)
  | change_enabled r :
      status r ≠ "active" → row_change env r (set_status "active" r)
  | change_renewed r :
      status r = "active" → row_change env r (plus_one_hour r)
  | change_recreated r ruleID :
      row_change env r (set_recreated ruleID (time_now env + hour) r).

(** The row that the [INSERT] of [handleGenerate] writes. *)
Definition generated_row (env : Env) (ruleID : string) : EmailRow :=
  {| alias := new_address env; rule_id := ruleID; created_at := sql_now env;
     expires_at := Some (time_now env + hour); status := "active" |}.

(** ** A table invariant

    Every ['deleted'] row has an empty rule id. *)
Definition deleted_cleared (db : Emails) : Prop :=
  ∀ i r, db !! i = Some r → status r = "deleted" → rule_id r = "".

(** The keys in use are [1], ..., [size db]. *)
Definition keys_consecutive (db : Emails) : Prop :=
  ∀ i, is_Some (db !! i) ↔ 1 ≤ i ≤ Z.of_nat (size db).

(** ** Sample data

    Concrete environments and tables on which the theorems below are run. *)

Definition reply_created (ruleID : string) : string + CFResponse :=
  inr {| Success := true; ResultID := ruleID; Errors := [] |}.

Definition reply_refused (msg : string) : string + CFResponse :=
  inr {| Success := false; ResultID := ""; Errors := [msg] |}.

Definition reply_timeout : string + CFResponse :=
  inl "context deadline exceeded".

(** An environment whose Cloudflare always answers [reply], with both
    clocks at [now]. *)
Definition sample_env (reply : string + CFResponse) (now : Z) : Env :=
  {| getenv := λ name, if decide (name = "CF_EMAIL_DOMAIN") then "mail.test" else "";
     client_do := λ _ _ _, reply;
     rand_intn := λ i, (7 * i + 3)%nat;
     time_now := now;
     sql_now := now;
     template_ok := true |}.

Definition row1 : EmailRow :=
  {| alias := "dkry5cjq@mail.test"; rule_id := "rule-1"; created_at := 1000;
     expires_at := Some 4600; status := "active" |}.

Definition row1_deleted : EmailRow :=
  {| alias := "dkry5cjq@mail.test"; rule_id := ""; created_at := 1000;
     expires_at := Some 4600; status := "deleted" |}.

(** A row as the [ALTER TABLE] of [initDB] leaves it: no [expires_at]. *)
Definition row_legacy : EmailRow :=
  {| alias := "old00000@mail.test"; rule_id := "rule-0"; created_at := 500;
     expires_at := None; status := "active" |}.

Definition row2_inactive : EmailRow :=
  {| alias := "zzzzzzzz@mail.test"; rule_id := "rule-2"; created_at := 1500;
     expires_at := Some 5100; status := "inactive" |}.

Definition row3 : EmailRow :=
  {| alias := "aaaaaaaa@mail.test"; rule_id := "rule-3"; created_at := 2000;
     expires_at := Some 5600; status := "active" |}.

Definition row4_deleted : EmailRow :=
  {| alias := "bbbbbbbb@mail.test"; rule_id := ""; created_at := 2500;
     expires_at := Some 6100; status := "deleted" |}.

Definition db1 : Emails := {[ 1 := row1 ]}.
Definition db4 : Emails :=
  <[ 4 := row4_deleted ]> (<[ 3 := row3 ]> (<[ 2 := row2_inactive ]> db1)).
Definition db1_deleted : Emails := {[ 1 := row1_deleted ]}.
Definition db_legacy : Emails := {[ 7 := row_legacy ]}.

(** * Properties *)

(** ** The statements, row by row *)

Lemma set_deleted_idem r : set_deleted (set_deleted r) = set_deleted r.
Proof. reflexivity. Qed.

Lemma set_deleted_fixed r :
  status r = "deleted" → rule_id r = "" → set_deleted r = r.
Proof. destruct r as [a ru c e s]; simpl; intros -> ->; reflexivity. Qed.

Lemma lookup_mark_deleted i j (db : Emails) :
  sql_mark_deleted i db !! j =
    if decide (i = j) then set_deleted <$> db !! i else db !! j.
Proof. apply lookup_alter. Qed.

Lemma mark_deleted_absent i (db : Emails) :
  db !! i = None → sql_mark_deleted i db = db.
Proof. apply alter_id'. Qed.

Lemma renew_absent i (db : Emails) : db !! i = None → sql_renew i db = db.
Proof. apply alter_id'. Qed.

Lemma renew_not_active i (db : Emails) r :
  db !! i = Some r → status r ≠ "active" → sql_renew i db = db.
Proof.
  intros Hi Hs. apply alter_id. intros x Hx.
  assert (x = r) as -> by congruence. by rewrite decide_False.
Qed.

Lemma renew_active i (db : Emails) r :
  db !! i = Some r → status r = "active" →
  sql_renew i db !! i = Some (plus_one_hour r).
Proof.
  intros Hi Hs. unfold sql_renew. rewrite lookup_alter_eq, Hi. simpl.
  by rewrite decide_True.
Qed.

Lemma plus_one_hour_no_expiry r : expires_at r = None → plus_one_hour r = r.
Proof. destruct r as [a ru c e s]; simpl; intros ->; reflexivity. Qed.

(** ** Keys handed out by [AUTOINCREMENT] *)

Lemma foldr_max_ge (l : list Z) x : x ∈ l → x ≤ foldr Z.max 0 l.
Proof.
  induction 1 as [x l | x y l _ IH]; simpl; lia.
Qed.

Lemma max_id_ge (db : Emails) i r : db !! i = Some r → i ≤ max_id db.
Proof.
  intros Hi. apply foldr_max_ge.
  apply list_elem_of_fmap. exists (i, r). split; [done |].
  by apply elem_of_map_to_list.
Qed.

Lemma next_id_fresh (db : Emails) : db !! next_id db = None.
Proof.
  destruct (db !! next_id db) as [r |] eqn:E; [| done].
  apply max_id_ge in E. unfold next_id in E. lia.
Qed.

Lemma insert_keeps now a ru e (db : Emails) i r :
  db !! i = Some r → sql_insert now a ru e db !! i = Some r.
Proof.
  intros Hi. unfold sql_insert. rewrite lookup_insert_ne; [done |].
  intros Heq. rewrite <- Heq, next_id_fresh in Hi. discriminate.
Qed.

(** ** The sweeper's loop *)

Lemma lookup_expire_rows env (rows : list (Z * EmailRow)) (db : Emails) i :
  foldl (expire_row env) db rows !! i =
    if decide (i ∈ rows.*1) then set_deleted <$> db !! i else db !! i.
Proof.
  revert db. induction rows as [| [j r] rows IH]; intros db.
  - rewrite decide_False; [done | apply not_elem_of_nil].
  - cbn [foldl]. rewrite IH, fmap_cons. unfold expire_row; cbn [fst snd].
    rewrite !lookup_mark_deleted.
    destruct (decide (j = i)) as [-> | Hne].
    + rewrite (decide_True (P := i ∈ i :: _)) by (apply elem_of_cons; auto).
      destruct (db !! i); simpl; by case_decide.
    + case_decide as Hin.
      * rewrite decide_True; [done | apply elem_of_cons; auto].
      * rewrite decide_False; [done |].
        intros Hin'. apply elem_of_cons in Hin' as [-> | ?]; done.
Qed.

Lemma selected_keys now (db : Emails) i :
  i ∈ (listExpiredActive now db).*1 ↔
  ∃ r, db !! i = Some r ∧ expired_active now (i, r).
Proof.
  unfold listExpiredActive. rewrite list_elem_of_fmap. split.
  - intros [[j r] [-> Hin]]. apply list_elem_of_filter in Hin as [Hp Hin].
    apply elem_of_map_to_list in Hin. eauto.
  - intros [r [Hi Hp]]. exists (i, r). split; [done |].
    apply list_elem_of_filter. split; [done |]. by apply elem_of_map_to_list.
Qed.

Lemma lookup_checkExpiredEmails env (db : Emails) i :
  checkExpiredEmails env db !! i =
    (λ r, if decide (expired_active (sql_now env) (i, r)) then set_deleted r else r)
      <$> db !! i.
Proof.
  unfold checkExpiredEmails. rewrite lookup_expire_rows.
  destruct (db !! i) as [r |] eqn:Hi; simpl.
  - destruct (decide (expired_active (sql_now env) (i, r))) as [Hp | Hp].
    + rewrite decide_True; [done |]. apply selected_keys. eauto.
    + rewrite decide_False; [done |]. rewrite selected_keys.
      intros [r' [Hi' Hp']]. congruence.
  - by case_decide.
Qed.

Example generate_builds_db1 :
  handleGenerate (sample_env (reply_created "rule-1") 1000) "POST" ∅
  = (Redirect "/" 303, db1).
Proof. vm_compute. reflexivity. Qed.

Example delete_builds_db1_deleted :
  handleDelete (sample_env reply_timeout 2000) 1 db1
  = (Redirect "/" 303, db1_deleted).
Proof. vm_compute. reflexivity. Qed.

(** ** Generated addresses *)

Lemma string_of_bytes_length b : String.length (string_of_bytes b) = length b.
Proof. induction b as [| c b IH]; simpl; congruence. Qed.

Lemma generateRandomString_length env n :
  String.length (generateRandomString env n) = n.
Proof.
  unfold generateRandomString.
  by rewrite string_of_bytes_length, length_fmap, length_seq.
Qed.

Example new_address_sample :
  new_address (sample_env reply_timeout 0) = "dkry5cjq@mail.test".
Proof. reflexivity. Qed.

(** ** Delete and expiry *)



(** C10.  For an id that is no key of the table, [handleDelete] and
    [handleRenew] answer with the redirect to ["/"] (no error response) and
    leave the table as it was. *)
Theorem delete_renew_unknown_id env (db : Emails) i :
  db !! i = None →
  handleDelete env i db = (Redirect "/" 303, db) ∧
  handleRenew env i db = (Redirect "/" 303, db).
Proof.
  intros Hi. unfold handleDelete, handleRenew.
  by rewrite mark_deleted_absent, renew_absent.
Qed.

Lemma delete_renew_unknown_id_witness :
  handleDelete (sample_env (reply_created "r") 2000) 42 db1 = (Redirect "/" 303, db1) ∧
  handleRenew (sample_env (reply_created "r") 2000) 42 db1 = (Redirect "/" 303, db1).
Proof.
  apply (delete_renew_unknown_id (sample_env (reply_created "r") 2000) db1 42).
  reflexivity.
Defined.

(** ** Remote failures that abort a request *)

(** C3.  [handleToggle] on a stored row: when [updateCFRule] returns an
    error, the table is returned as it was and the response is the
    [http.Error] with status 500 that carries that error. *)
Theorem toggle_remote_error env (db : Emails) i r err :
  db !! i = Some r →
  updateCFRule env (rule_id r) (toggle_enables r) = Some err →
  handleToggle env i db = (HttpError "Erro ao atualizar CF: " (Some err) 500, db) ∧
  is_error (handleToggle env i db).1 = true.
Proof.
  intros Hi Herr. unfold handleToggle, toggle_enables in *. rewrite Hi.
  destruct (decide (status r = "active")); rewrite Herr; done.
Qed.

Lemma toggle_remote_error_witness :
  handleToggle (sample_env (reply_refused "rule not found") 2000) 1 db1
  = (HttpError "Erro ao atualizar CF: " (Some (ErrCloudflare "rule not found")) 500, db1).
Proof.
  apply (toggle_remote_error (sample_env (reply_refused "rule not found") 2000)
           db1 1 row1 (ErrCloudflare "rule not found")); reflexivity.
Defined.

(** C4.  When [createCFRule] returns an error for the address that
    [handleGenerate] builds, the response is an error response and the
    table is returned as it was: no row is inserted.  For a POST it is the
    [http.Error] with status 500 that carries the error. *)
Theorem generate_remote_error env method (db : Emails) ruleID err :
  createCFRule env (new_address env) true = (ruleID, Some err) →
  is_error (handleGenerate env method db).1 = true ∧
  (handleGenerate env method db).2 = db ∧
  (method = "POST" →
   handleGenerate env method db = (HttpError "Erro Cloudflare: " (Some err) 500, db)).
Proof.
  intros Herr. unfold handleGenerate.
  destruct (decide (method ≠ "POST")) as [Hm | Hm]; [by repeat split |].
  rewrite Herr. done.
Qed.

Lemma generate_remote_error_witness :
  handleGenerate (sample_env reply_timeout 2000) "POST" db1
  = (HttpError "Erro Cloudflare: "
       (Some (ErrTransport "context deadline exceeded")) 500, db1).
Proof.
  apply (generate_remote_error (sample_env reply_timeout 2000) "POST" db1 ""
           (ErrTransport "context deadline exceeded")); reflexivity.
Defined.

(** ** The sweeper's query *)



(** ** Toggling *)

Lemma set_status_back r s : set_status (status r) (set_status s r) = r.
Proof. by destruct r. Qed.

(** C8.  A stored row with status ['active'] is toggled twice, and
    [updateCFRule] succeeds both times (first disabling, then enabling the
    rule).  Both requests are answered with the redirect; after the first
    the row is ['inactive'] with the same rule id, after the second it is
    ['active'] with the same rule id: it is the row it was, and so is the
    whole table. *)
Theorem toggle_twice env1 env2 (db : Emails) i r :
  db !! i = Some r →
  status r = "active" →
  updateCFRule env1 (rule_id r) false = None →
  updateCFRule env2 (rule_id r) true = None →
  let once := handleToggle env1 i db in
  let twice := handleToggle env2 i once.2 in
  once.1 = Redirect "/" 303 ∧
  (∃ r1, once.2 !! i = Some r1 ∧ status r1 = "inactive" ∧ rule_id r1 = rule_id r) ∧
  twice.1 = Redirect "/" 303 ∧
  (∃ r2, twice.2 !! i = Some r2 ∧ status r2 = "active" ∧ rule_id r2 = rule_id r ∧ r2 = r) ∧
  twice.2 = db.
Proof.
  intros Hi Hs H1 H2.
  assert (handleToggle env1 i db
          = (Redirect "/" 303, sql_update_status "inactive" i db)) as E1.
  { unfold handleToggle. rewrite Hi, decide_True by done. by rewrite H1. }
  assert (sql_update_status "inactive" i db !! i = Some (set_status "inactive" r))
    as Hi1.
  { unfold sql_update_status. by rewrite lookup_alter_eq, Hi. }
  assert (handleToggle env2 i (sql_update_status "inactive" i db)
          = (Redirect "/" 303,
             sql_update_status "active" i (sql_update_status "inactive" i db))) as E2.
  { unfold handleToggle. rewrite Hi1, decide_False by done. cbn [rule_id set_status].
    by rewrite H2. }
  assert (sql_update_status "active" i (sql_update_status "inactive" i db) = db)
    as Hback.
  { unfold sql_update_status. rewrite alter_alter_eq. apply alter_id.
    intros x Hx. assert (x = r) as -> by congruence.
    rewrite <- Hs. apply set_status_back. }
  cbn zeta. rewrite E1. cbn [fst snd]. rewrite E2. cbn [fst snd].
  rewrite Hback. repeat split; eauto.
Qed.

Lemma toggle_twice_witness :
  (handleToggle (sample_env (reply_created "rule-1") 2000) 1 db1).2
    = {[ 1 := set_status "inactive" row1 ]} ∧
  (handleToggle (sample_env (reply_created "rule-1") 2060) 1
     (handleToggle (sample_env (reply_created "rule-1") 2000) 1 db1).2).2 = db1.
Proof.
  split; [reflexivity |].
  apply (toggle_twice (sample_env (reply_created "rule-1") 2000)
           (sample_env (reply_created "rule-1") 2060) db1 1 row1); reflexivity.
Defined.

(** ** The listing *)


#[global] Instance listing_le_total : Total listing_le.
Proof. intros a b. unfold listing_le. lia. Qed.

#[global] Instance listing_le_trans : Transitive listing_le.
Proof. intros a b c. unfold listing_le. lia. Qed.



Example listAll_db4 :
  ID <$> listAll db4 = [3; 1; 4; 2] ∧
  Status <$> listAll db4 = ["active"; "active"; "deleted"; "inactive"] ∧
  CreatedAt <$> listAll db4 = [2000; 1000; 2500; 1500].
Proof. vm_compute. done. Qed.


(** ** Renewal *)

(** C6, as stated, fails on a row that has no stored expiry.  [row_legacy]
    is ['active'] and its [expires_at] is [NULL]; [handleRenew] leaves it
    exactly as it was, so the expiry that [handleIndex] shows for it is the
    same before and after, not one hour later. *)
Lemma renew_row_without_expiry :
  let env := sample_env (reply_created "r") 2000 in
  let db' := (handleRenew env 7 db_legacy).2 in
  db_legacy !! 7 = Some row_legacy ∧
  status row_legacy = "active" ∧
  db' !! 7 = Some row_legacy ∧
  ExpiresAt (scan_entry (7, row_legacy)) = 500 ∧
  ExpiresAt <$> (scan_entry <$> ((λ r, (7, r)) <$> db' !! 7)) ≠ Some (500 + hour).
Proof. vm_compute. repeat split; discriminate. Qed.

(** What [handleRenew] does to an ['active'] row without stored expiry, in
    general: nothing. *)
Lemma renew_without_expiry env (db : Emails) i r :
  db !! i = Some r → expires_at r = None → (handleRenew env i db).2 = db.
Proof.
  intros Hi Ht. unfold handleRenew, sql_renew; cbn [snd]. apply alter_id.
  intros x Hx. assert (x = r) as -> by congruence.
  case_decide; [by apply plus_one_hour_no_expiry | done].
Qed.

(** C6, amended.  [handleRenew] always answers with the redirect and
    touches no row but the one under [i].  For the row [r] stored under
    [i]: if it is ['active'] and has a stored expiry [t], the expiry
    becomes [t + 3600] and the other columns stay; if its status is
    anything but ['active'] (so for ['inactive'] and ['deleted']), the
    table is left as it was. *)
Theorem renew_spec env (db : Emails) i r :
  db !! i = Some r →
  (handleRenew env i db).1 = Redirect "/" 303 ∧
  (∀ j, j ≠ i → (handleRenew env i db).2 !! j = db !! j) ∧
  (status r = "active" → ∀ t, expires_at r = Some t →
     (handleRenew env i db).2 !! i =
       Some {| alias := alias r; rule_id := rule_id r; created_at := created_at r;
               expires_at := Some (t + 3600); status := "active" |}) ∧
  (status r ≠ "active" → (handleRenew env i db).2 = db).
Proof.
  intros Hi. unfold handleRenew; cbn [fst snd]. repeat split.
  - intros j Hj. unfold sql_renew. by rewrite lookup_alter_ne.
  - intros Hs t Ht. rewrite (renew_active i db r Hi Hs).
    unfold plus_one_hour, hour. by rewrite Ht, Hs.
  - intros Hs. by eapply renew_not_active.
Qed.

Lemma renew_spec_witness :
  (handleRenew (sample_env (reply_created "r") 2000) 1 db4).2 !! 1
    = Some {| alias := "dkry5cjq@mail.test"; rule_id := "rule-1"; created_at := 1000;
              expires_at := Some 8200; status := "active" |} ∧
  (handleRenew (sample_env (reply_created "r") 2000) 2 db4).2 = db4 ∧
  (handleRenew (sample_env (reply_created "r") 2000) 4 db4).2 = db4.
Proof.
  split; [| split].
  - destruct (renew_spec (sample_env (reply_created "r") 2000) db4 1 row1 eq_refl)
      as (_ & _ & Hactive & _).
    exact (Hactive eq_refl 4600 eq_refl).
  - destruct (renew_spec (sample_env (reply_created "r") 2000) db4 2 row2_inactive eq_refl)
      as (_ & _ & _ & Hother).
    apply Hother. discriminate.
  - destruct (renew_spec (sample_env (reply_created "r") 2000) db4 4 row4_deleted eq_refl)
      as (_ & _ & _ & Hother).
    apply Hother. discriminate.
Defined.

(** ** Generation *)

(** C7, as stated, fails when Cloudflare answers the create-rule call with
    [success: true] and no id: [callCFAPI] returns the empty id without an
    error, the request succeeds, and the new row has an empty [rule_id]. *)
Lemma generate_stores_empty_rule_id :
  let env := sample_env (reply_created "") 1000 in
  createCFRule env (new_address env) true = ("", None) ∧
  (handleGenerate env "POST" ∅).1 = Redirect "/" 303 ∧
  (handleGenerate env "POST" ∅).2 !! 1 =
    Some {| alias := "dkry5cjq@mail.test"; rule_id := ""; created_at := 1000;
            expires_at := Some 4600; status := "active" |}.
Proof. vm_compute. done. Qed.

(** C7, amended.  When [handleGenerate] does not answer with an error, it
    answers with the redirect, [createCFRule] returned some id [ruleID]
    without error, and the table is the old one with one new row under a
    key that was free.  The new row has status ['active'], [rule_id] equal
    to [ruleID] as returned (so non-empty when [ruleID] is), the built
    address, and [expires_at] equal to [time.Now()] plus 3600; its
    [created_at] is SQLite's clock, so [expires_at] is within [ε] of
    [created_at] plus one hour whenever the two clocks are within [ε]. *)
Theorem generate_success env method (db : Emails) :
  is_error (handleGenerate env method db).1 = false →
  ∃ ruleID row,
    createCFRule env (new_address env) true = (ruleID, None) ∧
    (handleGenerate env method db).1 = Redirect "/" 303 ∧
    db !! next_id db = None ∧
    (handleGenerate env method db).2 = <[ next_id db := row ]> db ∧
    status row = "active" ∧
    rule_id row = ruleID ∧
    (ruleID ≠ "" → rule_id row ≠ "") ∧
    alias row = new_address env ∧
    created_at row = sql_now env ∧
    expires_at row = Some (time_now env + 3600) ∧
    (∀ ε, Z.abs (time_now env - sql_now env) ≤ ε →
          Z.abs (time_now env + 3600 - (created_at row + 3600)) ≤ ε).
Proof.
  unfold handleGenerate.
  destruct (decide (method ≠ "POST")) as [Hm | Hm]; [discriminate |].
  destruct (createCFRule env (new_address env) true) as [ruleID [err |]] eqn:E;
    [discriminate |].
  intros _. eexists ruleID, _. split; [reflexivity |]. cbn [fst snd].
  split; [reflexivity |]. split; [apply next_id_fresh |].
  split; [reflexivity |]. cbn [status rule_id alias created_at expires_at].
  repeat split; try done. intros ε Hε. replace (_ - _) with (time_now env - sql_now env) by lia.
  done.
Qed.

Lemma generate_success_witness :
  (handleGenerate (sample_env (reply_created "rule-9") 3000) "POST" db4).2 !! 5
  = Some {| alias := "dkry5cjq@mail.test"; rule_id := "rule-9"; created_at := 3000;
            expires_at := Some 6600; status := "active" |}.
Proof.
  destruct (generate_success (sample_env (reply_created "rule-9") 3000) "POST" db4 eq_refl)
    as (ruleID & row & Hcall & _ & _ & -> & Hs & Hr & _ & Ha & Hc & He & _).
  change (next_id db4) with 5. rewrite lookup_insert_eq. f_equal.
  injection Hcall as <-.
  destruct row as [a ru c e s]. cbn in Hs, Hr, Ha, Hc, He. by subst.
Defined.

(** ** Deleted rows *)

(** Delete and the sweeper clear the rule id together with the status, and
    nothing else writes ['deleted']: in a table where every ['deleted'] row
    has an empty rule id, that stays so under every operation. *)
Lemma run_table env op (db : Emails) :
  (run env op db).2 =
    match op with
    | OpGenerate method => (handleGenerate env method db).2
    | OpRenew j => (handleRenew env j db).2
    | OpToggle j => (handleToggle env j db).2
    | OpDelete j => (handleDelete env j db).2
    | OpRecreate j => (handleRecreate env j db).2
    | OpTick => checkExpiredEmails env db
    end.
Proof. by destruct op. Qed.

Lemma failed_toggle env j (db : Emails) :
  failed env (OpToggle j) db = is_error (handleToggle env j db).1.
Proof. reflexivity. Qed.

Lemma failed_recreate env j (db : Emails) :
  failed env (OpRecreate j) db = is_error (handleRecreate env j db).1.
Proof. reflexivity. Qed.

Lemma run_keeps_deleted_cleared env op (db : Emails) :
  deleted_cleared db → deleted_cleared (run env op db).2.
Proof.
  unfold deleted_cleared. intros Hinv i r. rewrite run_table.
  destruct op as [method | j | j | j | j |].
  - unfold handleGenerate. case_decide; [apply Hinv |].
    destruct (createCFRule _ _ _) as [ruleID [err |]]; [apply Hinv |].
    cbn [snd]. unfold sql_insert. rewrite lookup_insert.
    case_decide; [| apply Hinv]. intros [= <-]. discriminate.
  - unfold handleRenew, sql_renew; cbn [snd]. rewrite lookup_alter_Some.
    intros [[-> (x & Hx & ->)] | [_ Hx]]; [| eauto].
    case_decide; [| eauto]. cbn. congruence.
  - unfold handleToggle. destruct (db !! j) as [x |] eqn:Hj; [| apply Hinv].
    destruct (decide (status x = "active")),
             (updateCFRule _ _ _); cbn [snd]; try apply Hinv;
      unfold sql_update_status; rewrite lookup_alter_Some;
      (intros [[-> (y & Hy & ->)] | [_ Hy]]; [discriminate | eauto]).
  - unfold handleDelete, sql_mark_deleted; cbn [snd]. rewrite lookup_alter_Some.
    intros [[-> (x & Hx & ->)] | [_ Hx]]; [done | eauto].
  - unfold handleRecreate.
    destruct (createCFRule _ _ _) as [ruleID [err |]]; [apply Hinv |].
    cbn [snd]. unfold sql_recreate. rewrite lookup_alter_Some.
    intros [[-> (x & Hx & ->)] | [_ Hx]]; [discriminate | eauto].
  - rewrite lookup_checkExpiredEmails.
    destruct (db !! i) as [x |] eqn:Hx; [| discriminate]. cbn.
    case_decide; intros [= <-]; [done | eauto].
Qed.

(** C1, as stated, fails: recreate is the way back from ['deleted'].  On
    [db1_deleted], the table [handleDelete] leaves from [db1], a recreate
    that Cloudflare accepts turns the ['deleted'] row into an ['active']
    one with a new rule id and a new expiry. *)
Lemma recreate_revives_deleted_row :
  let env := sample_env (reply_created "rule-2") 9000 in
  db1_deleted !! 1 = Some row1_deleted ∧
  status row1_deleted = "deleted" ∧
  (run env (OpRecreate 1) db1_deleted).1 = Some (Redirect "/" 303) ∧
  (run env (OpRecreate 1) db1_deleted).2 !! 1 =
    Some {| alias := "dkry5cjq@mail.test"; rule_id := "rule-2"; created_at := 1000;
            expires_at := Some 12600; status := "active" |} ∧
  (run env (OpRecreate 1) db1_deleted).2 !! 1 ≠ Some row1_deleted.
Proof. vm_compute. repeat split; discriminate. Qed.

(** C1, amended.  Let [r] be stored under [i] with status ['deleted'] and
    an empty rule id.
    - Every operation leaves the row as it is, all columns, provided that,
      if the operation is a toggle or a recreate of [i] itself, it was
      answered with an error.  This covers generate, renew, delete and the
      sweeper's tick without condition, and every request for another id.
    - A recreate of [i] for which [createCFRule] succeeds with [ruleID] is
      answered with the redirect and makes the row ['active'], with
      [ruleID] as rule id and [time.Now()] plus 3600 as expiry; address
      and creation time stay. *)
Theorem deleted_row_changes_only_by_revival env op (db : Emails) i r :
  db !! i = Some r →
  status r = "deleted" →
  rule_id r = "" →
  ((op = OpToggle i ∨ op = OpRecreate i → failed env op db = true) →
   (run env op db).2 !! i = Some r) ∧
  (∀ ruleID, createCFRule env (alias r) true = (ruleID, None) →
   (run env (OpRecreate i) db).1 = Some (Redirect "/" 303) ∧
   (run env (OpRecreate i) db).2 !! i =
     Some {| alias := alias r; rule_id := ruleID; created_at := created_at r;
             expires_at := Some (time_now env + 3600); status := "active" |}).
Proof.
  intros Hi Hs Hr. split.
  - rewrite run_table. destruct op as [method | j | j | j | j |]; intros Hfail;
      try rewrite failed_toggle in Hfail; try rewrite failed_recreate in Hfail.
    + unfold handleGenerate. case_decide; [done |].
      destruct (createCFRule _ _ _) as [ruleID [err |]]; [done |].
      cbn [snd]. by apply insert_keeps.
    + unfold handleRenew, sql_renew; cbn [snd]. rewrite lookup_alter.
      case_decide as Hj; [subst j | done]. rewrite Hi. cbn.
      rewrite decide_False; [done | congruence].
    + unfold handleToggle in *. destruct (decide (j = i)) as [-> | Hj].
      * rewrite Hi in *.
        destruct (decide (status r = "active")), (updateCFRule _ _ _);
          cbn [fst snd is_error] in *; try done; by specialize (Hfail (or_introl eq_refl)).
      * destruct (db !! j) as [x |]; [| done].
        destruct (decide (status x = "active")), (updateCFRule _ _ _);
          cbn [snd]; try done; unfold sql_update_status; by rewrite lookup_alter_ne.
    + unfold handleDelete; cbn [snd]. rewrite lookup_mark_deleted.
      case_decide as Hj; [subst j | done]. rewrite Hi. cbn.
      by rewrite set_deleted_fixed.
    + unfold handleRecreate in *. destruct (decide (j = i)) as [-> | Hj].
      * destruct (createCFRule _ _ _) as [ruleID [err |]];
          cbn [fst snd is_error] in *; [done |].
        by specialize (Hfail (or_intror eq_refl)).
      * destruct (createCFRule _ _ _) as [ruleID [err |]]; cbn [snd]; [done |].
        unfold sql_recreate. by rewrite lookup_alter_ne.
    + rewrite lookup_checkExpiredEmails, Hi. cbn.
      rewrite decide_False; [done |]. intros [Hact _]. cbn in Hact. congruence.
  - intros ruleID Hcall.
    assert (handleRecreate env i db
            = (Redirect "/" 303, sql_recreate ruleID (time_now env + hour) i db)) as E.
    { unfold handleRecreate. rewrite Hi. cbn [from_option]. by rewrite Hcall. }
    split; [cbn [run]; by rewrite E |].
    rewrite run_table, E. cbn [snd]. unfold sql_recreate, hour.
    by rewrite lookup_alter_eq, Hi.
Qed.

Lemma deleted_row_changes_only_by_revival_witness :
  let env := sample_env (reply_created "rule-2") 9000 in
  (run env (OpDelete 4) db4).2 !! 4 = Some row4_deleted ∧
  (run env OpTick db4).2 !! 4 = Some row4_deleted ∧
  (run env (OpRenew 4) db4).2 !! 4 = Some row4_deleted ∧
  (run env (OpToggle 1) db4).2 !! 4 = Some row4_deleted ∧
  (run (sample_env reply_timeout 9000) (OpRecreate 4) db4).2 !! 4 = Some row4_deleted ∧
  (run env (OpRecreate 4) db4).2 !! 4 =
    Some {| alias := "bbbbbbbb@mail.test"; rule_id := "rule-2"; created_at := 2500;
            expires_at := Some 12600; status := "active" |}.
Proof.
  intros env.
  pose proof (λ e op, deleted_row_changes_only_by_revival e op db4 4 row4_deleted
                        eq_refl eq_refl eq_refl) as H.
  split; [| split; [| split; [| split; [| split]]]].
  - apply (H env (OpDelete 4)). intros [[=] | [=]].
  - apply (H env OpTick). intros [[=] | [=]].
  - apply (H env (OpRenew 4)). intros [[=] | [=]].
  - apply (H env (OpToggle 1)). intros [[=] | [=]].
  - apply (H (sample_env reply_timeout 9000) (OpRecreate 4)). intros _. reflexivity.
  - apply (proj2 (H env (OpRecreate 4)) "rule-2"). reflexivity.
Defined.

(** * Further properties *)

(** ** What [callCFAPI] reports *)

Lemma createCFRule_answer env email enabled :
  createCFRule env email enabled = answer env (create_call env email enabled).
Proof. reflexivity. Qed.

Lemma updateCFRule_answer env ruleID enabled :
  updateCFRule env ruleID enabled = (answer env (update_call env ruleID enabled)).2.
Proof. reflexivity. Qed.

Lemma deleteCFRule_answer env ruleID :
  deleteCFRule env ruleID = (answer env (delete_call env ruleID)).2.
Proof. reflexivity. Qed.

(** X1.  For a method other than DELETE, [callCFAPI] returns an id without
    error exactly when the exchange produced a reply whose [success] is
    true, and the id is the [result.id] of that reply; the HTTP status is
    not looked at. *)
Theorem callCFAPI_succeeds_iff env method url body ruleID :
  method ≠ "DELETE" →
  callCFAPI env method url body = (ruleID, None) ↔
  ∃ resp, client_do env method url body = inr resp ∧
          Success resp = true ∧ ruleID = ResultID resp.
Proof.
  intros Hm. unfold callCFAPI. rewrite (bool_decide_eq_false_2 _ Hm).
  destruct (client_do env method url body) as [msg | resp]; simpl.
  - split; [discriminate | intros (resp & [=] & _)].
  - rewrite andb_true_r. destruct (Success resp) eqn:Hs; simpl.
    + split; [intros [= <-]; eauto | intros (resp' & [= <-] & _ & ->); done].
    + split; [destruct (Errors resp); discriminate |].
      intros (resp' & [= <-] & Hs' & _). congruence.
Qed.

Lemma callCFAPI_succeeds_iff_witness :
  createCFRule (sample_env (reply_created "rule-5") 0) "a@mail.test" true
  = ("rule-5", None).
Proof.
  apply (callCFAPI_succeeds_iff (sample_env (reply_created "rule-5") 0) "POST");
    [discriminate |].
  eexists. split; [reflexivity |]. split; reflexivity.
Defined.

(** X2.  [deleteCFRule] returns an error only when the request could not
    be carried out.  Whatever Cloudflare replies, also [success: false]
    with error messages, [deleteCFRule] returns [nil]. *)
Theorem deleteCFRule_refusal_is_silent env ruleID :
  deleteCFRule env ruleID =
    match client_do env "DELETE" (rules_url env +:+ "/" +:+ ruleID) None with
    | inl msg => Some (ErrTransport msg)
    | inr _ => None
    end.
Proof.
  unfold deleteCFRule, callCFAPI.
  destruct (client_do _ _ _ _) as [msg | resp]; [done |].
  rewrite bool_decide_eq_true_2 by done. by rewrite andb_false_r.
Qed.

Example deleteCFRule_refused :
  deleteCFRule (sample_env (reply_refused "rule not found") 0) "rule-1" = None.
Proof. reflexivity. Qed.



(** ** The random prefix *)

Lemma get_string_of_bytes b k : String.get k (string_of_bytes b) = b !! k.
Proof.
  revert k. induction b as [| c b IH]; intros [| k]; simpl; auto.
Qed.

Lemma get_is_Some s k : (k < String.length s)%nat → is_Some (String.get k s).
Proof.
  revert k. induction s as [| c s IH]; intros k Hk; simpl in *; [lia |].
  destruct k as [| k]; [eauto |]. apply IH. lia.
Qed.

Lemma letter_at_in_letters j :
  (j < String.length letters)%nat → String.get j letters = Some (letter_at j).
Proof.
  intros Hj. unfold letter_at.
  destruct (get_is_Some letters j Hj) as [c ->]. reflexivity.
Qed.

(** X4.  [generateRandomString(n)] has exactly [n] characters, and each of
    them is one of the 36 characters of [letters], whatever the random
    source returns. *)
Theorem generateRandomString_alphabet env n :
  String.length (generateRandomString env n) = n ∧
  ∀ k c, String.get k (generateRandomString env n) = Some c →
         ∃ j, (j < 36)%nat ∧ String.get j letters = Some c.
Proof.
  split; [apply generateRandomString_length |].
  intros k c. unfold generateRandomString.
  rewrite get_string_of_bytes, list_lookup_fmap.
  destruct (seq 0 n !! k) as [i |]; [| discriminate]. simpl. intros [= <-].
  set (j := (rand_intn env i `mod` String.length letters)%nat).
  assert (j < 36)%nat as Hj by (apply (Nat.mod_upper_bound _ 36); lia).
  exists j. split; [done |]. by apply letter_at_in_letters.
Qed.

Lemma generateRandomString_alphabet_witness :
  ∃ j, (j < 36)%nat ∧ String.get j letters = Some "q"%char.
Proof.
  apply (proj2 (generateRandomString_alphabet (sample_env reply_timeout 0) 8) 7%nat).
  reflexivity.
Defined.

(** ** The listing, row by row *)



Example listAll_legacy :
  listAll db_legacy =
    [ {| ID := 7; Alias := "old00000@mail.test"; RuleID := "rule-0";
         CreatedAt := 500; ExpiresAt := 500; Status := "active" |} ].
Proof. reflexivity. Qed.

(** ** One operation, row by row *)

Lemma handleGenerate_table env method (db : Emails) :
  (handleGenerate env method db).2 = db ∧
    is_error (handleGenerate env method db).1 = true ∨
  ∃ ruleID, (handleGenerate env method db).2
              = <[ next_id db := generated_row env ruleID ]> db ∧
            (handleGenerate env method db).1 = Redirect "/" 303.
Proof.
  unfold handleGenerate. case_decide; [by left |].
  destruct (createCFRule _ _ _) as [ruleID [err |]]; [by left |].
  right. by exists ruleID.
Qed.

Lemma expired_active_status now i r : expired_active now (i, r) → status r = "active".
Proof. by intros [? _]. Qed.

Lemma run_rows_cases env op (db : Emails) i :
  match db !! i with
  | Some r => ∃ r', (run env op db).2 !! i = Some r' ∧ row_change env r r'
  | None =>
      (run env op db).2 !! i = None ∨
      ∃ method ruleID, op = OpGenerate method ∧ i = next_id db ∧
                       (run env op db).2 !! i = Some (generated_row env ruleID)
  end.
Proof.
  rewrite run_table. destruct op as [method | j | j | j | j |].
  - destruct (handleGenerate_table env method db) as [[-> _] | (ruleID & -> & _)].
    + destruct (db !! i) as [r |]; [| by left]. eauto using change_none.
    + destruct (decide (i = next_id db)) as [-> | Hne].
      * rewrite next_id_fresh, lookup_insert_eq. right. eauto.
      * rewrite lookup_insert_ne by done.
        destruct (db !! i) as [r |]; [| by left]. eauto using change_none.
  - unfold handleRenew, sql_renew; cbn [snd]. rewrite lookup_alter.
    case_decide as Hj; [subst j |].
    + destruct (db !! i) as [r |]; [| by left]. cbn.
      case_decide; eauto using change_none, change_renewed.
    + destruct (db !! i) as [r |]; [| by left]. eauto using change_none.
  - unfold handleToggle. destruct (db !! j) as [x |] eqn:Hj.
    + destruct (decide (status x = "active")) as [Hs | Hs],
               (updateCFRule _ _ _); cbn [snd];
        try (destruct (db !! i) as [r |]; [eauto using change_none | by left]);
        unfold sql_update_status; rewrite lookup_alter;
        (case_decide as Hji; [subst j; rewrite Hj; cbn |
          (destruct (db !! i) as [r |]; [eauto using change_none | by left])]).
      * eauto using change_disabled.
      * eauto using change_enabled.
    + cbn [snd]. destruct (db !! i) as [r |]; [| by left]. eauto using change_none.
  - unfold handleDelete, sql_mark_deleted; cbn [snd]. rewrite lookup_alter.
    case_decide as Hj; [subst j |].
    + destruct (db !! i) as [r |]; [| by left]. cbn. eauto using change_deleted.
    + destruct (db !! i) as [r |]; [| by left]. eauto using change_none.
  - unfold handleRecreate.
    destruct (createCFRule _ _ _) as [ruleID [err |]]; cbn [snd].
    + destruct (db !! i) as [r |]; [| by left]. eauto using change_none.
    + unfold sql_recreate. rewrite lookup_alter.
      case_decide as Hj; [subst j |].
      * destruct (db !! i) as [r |]; [| by left]. cbn. eauto using change_recreated.
      * destruct (db !! i) as [r |]; [| by left]. eauto using change_none.
  - rewrite lookup_checkExpiredEmails.
    destruct (db !! i) as [r |]; [| by left]. cbn.
    case_decide; eauto using change_none, change_deleted.
Qed.

(** X6.  What one operation can do to the table.  A stored row is still
    stored afterwards, and it is as it was or changed by one of the five
    updates of [row_change]; a key that was free is still free, unless the
    operation is a generate, the key is the next key and the row is the
    freshly generated one. *)
Theorem run_rows env op (db : Emails) i :
  (∀ r, db !! i = Some r →
        ∃ r', (run env op db).2 !! i = Some r' ∧ row_change env r r') ∧
  (db !! i = None →
   (run env op db).2 !! i = None ∨
   ∃ method ruleID, op = OpGenerate method ∧ i = next_id db ∧
                    (run env op db).2 !! i = Some (generated_row env ruleID)).
Proof.
  pose proof (run_rows_cases env op db i) as H. split.
  - intros r Hi. by rewrite Hi in H.
  - intros Hi. by rewrite Hi in H.
Qed.

Lemma run_rows_witness :
  let env := sample_env (reply_created "rule-9") 3000 in
  (∃ r', (run env (OpToggle 1) db4).2 !! 1 = Some r' ∧ row_change env row1 r') ∧
  ((run env (OpGenerate "POST") db4).2 !! 5 = None ∨
   ∃ method ruleID, OpGenerate "POST" = OpGenerate method ∧ 5 = next_id db4 ∧
     (run env (OpGenerate "POST") db4).2 !! 5 = Some (generated_row env ruleID)).
Proof.
  intros env. split.
  - exact (proj1 (run_rows env (OpToggle 1) db4 1) row1 eq_refl).
  - exact (proj2 (run_rows env (OpGenerate "POST") db4 5) eq_refl).
Defined.

Lemma run_lookup_Some env op (db : Emails) i r' :
  (run env op db).2 !! i = Some r' →
  (∃ r, db !! i = Some r ∧ row_change env r r') ∨
  (∃ ruleID, db !! i = None ∧ r' = generated_row env ruleID).
Proof.
  intros H'. pose proof (run_rows_cases env op db i) as H.
  destruct (db !! i) as [r |].
  - destruct H as (r'' & E & Hc). left. exists r. split; [done | congruence].
  - destruct H as [E | (m & ruleID & _ & _ & E)]; [congruence |].
    right. exists ruleID. split; [done | congruence].
Qed.

Lemma same_keys_size (m1 m2 : Emails) :
  (∀ i, is_Some (m1 !! i) ↔ is_Some (m2 !! i)) → size m1 = size m2.
Proof.
  intros H. rewrite <- !(size_dom (D := gset Z)). f_equal.
  apply set_eq. intros i. by rewrite !elem_of_dom.
Qed.

Lemma failed_generate env method (db : Emails) :
  failed env (OpGenerate method) db = is_error (handleGenerate env method db).1.
Proof. reflexivity. Qed.

(** X7.  The table never loses a row, and a row is added only by a
    generate that is not answered with an error, one row at a time: the
    number of rows after an operation is the number before, or one more,
    and it is one more exactly in that case. *)
Theorem run_size env op (db : Emails) :
  (size (run env op db).2 = size db ∨ size (run env op db).2 = S (size db)) ∧
  (size (run env op db).2 = S (size db) ↔
   ∃ method, op = OpGenerate method ∧ failed env op db = false).
Proof.
  assert (size (run env op db).2 = size db ∧
            (∀ method, op = OpGenerate method → failed env op db = true) ∨
          size (run env op db).2 = S (size db) ∧
            ∃ method, op = OpGenerate method ∧ failed env op db = false) as H.
  { destruct op as [method | j | j | j | j |].
    1: { rewrite run_table, failed_generate.
         destruct (handleGenerate_table env method db) as [[-> He] | (ruleID & -> & Hr)].
         - left. split; [done |]. by intros ? _.
         - right. rewrite map_size_insert_None by apply next_id_fresh.
           split; [done |]. exists method. split; [done |]. by rewrite Hr. }
    all: left; (split; [| by intros ? [=]]); apply same_keys_size; intros i.
    all: match goal with |- context [run ?e ?o ?d] =>
           pose proof (run_rows_cases e o d i) as H end.
    all: destruct (db !! i) as [r |];
         [destruct H as (r' & -> & _); by split; eauto |].
    all: destruct H as [-> | (m & ? & [=] & _)]; done. }
  split.
  - destruct H as [[-> _] | [-> _]]; auto.
  - split.
    + intros Hs. destruct H as [[Hs' _] | [_ H]]; [lia | done].
    + intros (method & -> & Hf). destruct H as [[_ H] | [H _]]; [| done].
      specialize (H method eq_refl). congruence.
Qed.

Lemma run_size_witness :
  size (run (sample_env (reply_created "rule-9") 3000) (OpGenerate "POST") db4).2 = 5%nat.
Proof.
  apply (proj2 (proj2 (run_size (sample_env (reply_created "rule-9") 3000)
                         (OpGenerate "POST") db4))).
  exists "POST". split; reflexivity.
Defined.

(** ** Histories *)

Lemma run_all_cons env op steps (db : Emails) :
  run_all ((env, op) :: steps) db = run_all steps (run env op db).2.
Proof. reflexivity. Qed.

Lemma run_all_snoc env op steps (db : Emails) :
  run_all (steps ++ [(env, op)]) db = (run env op (run_all steps db)).2.
Proof. unfold run_all. by rewrite foldl_snoc. Qed.

Lemma row_change_keeps env r r' :
  row_change env r r' → alias r' = alias r ∧ created_at r' = created_at r.
Proof. by destruct 1. Qed.

(** X8.  No history removes a row or rewrites its address or its creation
    time: a row stored under [i] is still stored under [i] after any
    sequence of operations, with the same [alias] and [created_at]. *)
Theorem rows_persist steps (db : Emails) i r :
  db !! i = Some r →
  ∃ r', run_all steps db !! i = Some r' ∧
        alias r' = alias r ∧ created_at r' = created_at r.
Proof.
  revert db r. induction steps as [| [env op] steps IH]; intros db r Hi.
  - exists r. by repeat split.
  - rewrite run_all_cons. pose proof (run_rows_cases env op db i) as H.
    rewrite Hi in H. destruct H as (r1 & H1 & Hc).
    destruct (IH _ _ H1) as (r' & H' & Ha & Hcr).
    apply row_change_keeps in Hc as [Ha1 Hc1].
    exists r'. split; [done |]. split; congruence.
Qed.

Lemma rows_persist_witness :
  let env := sample_env (reply_created "rule-7") 9000 in
  ∃ r', run_all [(env, OpDelete 1); (env, OpRecreate 1); (env, OpToggle 1);
                 (env, OpTick); (env, OpGenerate "POST")] db4 !! 1 = Some r' ∧
        alias r' = "dkry5cjq@mail.test" ∧ created_at r' = 1000.
Proof.
  intros env.
  exact (rows_persist [(env, OpDelete 1); (env, OpRecreate 1); (env, OpToggle 1);
                       (env, OpTick); (env, OpGenerate "POST")] db4 1 row1 eq_refl).
Defined.

Lemma run_all_invariant (P : EmailRow → Prop) :
  (∀ env r r', P r → row_change env r r' → P r') →
  (∀ env ruleID, P (generated_row env ruleID)) →
  ∀ steps (db : Emails),
    (∀ i r, db !! i = Some r → P r) →
    ∀ i r, run_all steps db !! i = Some r → P r.
Proof.
  intros Hchange Hnew steps.
  induction steps as [| [env op] steps IH]; intros db Hdb; [done |].
  rewrite run_all_cons. apply IH. intros i r' H'.
  apply run_lookup_Some in H' as [(r & Hi & Hc) | (ruleID & _ & ->)]; eauto.
Qed.

(** X9.  In a table that the program has built from an empty one, every
    row has one of the three statuses ['active'], ['inactive'] and
    ['deleted'], has a stored expiry, and has an empty rule id if it is
    ['deleted']. *)
Theorem reachable_rows (db : Emails) i r :
  reachable db →
  db !! i = Some r →
  (status r = "active" ∨ status r = "inactive" ∨ status r = "deleted") ∧
  is_Some (expires_at r) ∧
  (status r = "deleted" → rule_id r = "").
Proof.
  intros [steps ->].
  apply (run_all_invariant
           (λ r, (status r = "active" ∨ status r = "inactive" ∨ status r = "deleted") ∧
                 is_Some (expires_at r) ∧ (status r = "deleted" → rule_id r = ""))).
  - intros env r0 r' (Hs & He & Hd) Hc.
    destruct Hc; cbn; repeat split; auto; try discriminate.
    destruct He as [t ->]. by eexists.
  - intros env ruleID. cbn. repeat split; auto; discriminate.
  - intros j r0. by rewrite lookup_empty.
Qed.

Lemma reachable_rows_witness :
  (status row1_deleted = "active" ∨ status row1_deleted = "inactive" ∨
   status row1_deleted = "deleted") ∧
  is_Some (expires_at row1_deleted) ∧
  (status row1_deleted = "deleted" → rule_id row1_deleted = "").
Proof.
  apply (reachable_rows db1_deleted 1 row1_deleted); [| reflexivity].
  exists [(sample_env (reply_created "rule-1") 1000, OpGenerate "POST");
          (sample_env reply_timeout 2000, OpDelete 1)].
  vm_compute. reflexivity.
Defined.

(** ** The keys of a table built by the program *)

Lemma foldr_max_attained (l : list Z) : foldr Z.max 0 l = 0 ∨ foldr Z.max 0 l ∈ l.
Proof.
  induction l as [| x l IH]; simpl; [by left |].
  destruct (Z.max_spec x (foldr Z.max 0 l)) as [[_ ->] | [_ ->]].
  - destruct IH as [-> | IH]; [by left | right; by apply elem_of_cons; right].
  - right. apply elem_of_cons. by left.
Qed.

Lemma max_id_attained (db : Emails) : max_id db = 0 ∨ is_Some (db !! max_id db).
Proof.
  unfold max_id. destruct (foldr_max_attained (map_to_list db).*1) as [-> | Hin].
  - by left.
  - right. apply list_elem_of_fmap in Hin as ([i r] & Heq & Hin).
    apply elem_of_map_to_list in Hin. cbn in Heq. rewrite Heq. eauto.
Qed.

Lemma run_keys env op (db : Emails) :
  (∀ i, is_Some ((run env op db).2 !! i) ↔ is_Some (db !! i)) ∨
  (∃ ruleID, (run env op db).2 = <[ next_id db := generated_row env ruleID ]> db).
Proof.
  destruct op as [method | j | j | j | j |].
  1: { rewrite run_table.
       destruct (handleGenerate_table env method db) as [[-> _] | (ruleID & -> & _)];
         [by left | right; eauto]. }
  all: left; intros i.
  all: match goal with |- context [run ?e ?o ?d] =>
         pose proof (run_rows_cases e o d i) as H end.
  all: destruct (db !! i) as [r |];
       [destruct H as (r' & -> & _); by split; eauto |].
  all: destruct H as [-> | (m & ? & [=] & _)]; done.
Qed.

Lemma keys_consecutive_max_id (db : Emails) :
  keys_consecutive db → max_id db = Z.of_nat (size db).
Proof.
  intros K. destruct (max_id_attained db) as [E | Hs].
  - destruct (size db) as [| n] eqn:Hn; [done |].
    assert (is_Some (db !! Z.of_nat (S n))) as [r Hr] by (apply K; lia).
    apply max_id_ge in Hr. lia.
  - assert (max_id db ≤ Z.of_nat (size db)) by (apply K in Hs; lia).
    destruct (size db) as [| n] eqn:Hn; [apply K in Hs; lia |].
    assert (is_Some (db !! Z.of_nat (S n))) as [r Hr] by (apply K; lia).
    apply max_id_ge in Hr. lia.
Qed.

Lemma run_keeps_keys_consecutive env op (db : Emails) :
  keys_consecutive db → keys_consecutive (run env op db).2.
Proof.
  intros K. destruct (run_keys env op db) as [Hsame | (ruleID & ->)].
  - intros i. rewrite (same_keys_size _ _ Hsame), Hsame. apply K.
  - intros i. rewrite map_size_insert_None by apply next_id_fresh.
    rewrite lookup_insert_is_Some. unfold next_id.
    rewrite (keys_consecutive_max_id db K), (K i). lia.
Qed.

(** X10.  [AUTOINCREMENT] numbers the rows in the order of their creation:
    in a table that the program has built from an empty one, the keys in
    use are exactly [1], [2], ..., up to the number of rows, and the next
    generated alias gets the number of rows plus one. *)
Theorem reachable_keys (db : Emails) :
  reachable db →
  (∀ i, is_Some (db !! i) ↔ 1 ≤ i ≤ Z.of_nat (size db)) ∧
  next_id db = Z.of_nat (size db) + 1.
Proof.
  intros [steps ->].
  assert (keys_consecutive (run_all steps ∅)) as K.
  { induction steps as [| [env op] steps IH] using rev_ind.
    - intros i. cbn. rewrite lookup_empty, map_size_empty.
      split; [by intros [? ?] | lia].
    - rewrite run_all_snoc. by apply run_keeps_keys_consecutive. }
  split; [exact K |]. unfold next_id. by rewrite keys_consecutive_max_id.
Qed.

Lemma reachable_keys_witness :
  (∀ i, is_Some (db1_deleted !! i) ↔ 1 ≤ i ≤ Z.of_nat (size db1_deleted)) ∧
  next_id db1_deleted = Z.of_nat (size db1_deleted) + 1.
Proof.
  apply (reachable_keys db1_deleted).
  exists [(sample_env (reply_created "rule-1") 1000, OpGenerate "POST");
          (sample_env reply_timeout 2000, OpDelete 1)].
  vm_compute. reflexivity.
Defined.

(** ** Operations one after another *)

(** X11.  Deleting twice is deleting once: the second [handleDelete] on
    the same id leaves the table that the first one left, and it sends
    nothing to Cloudflare, because the first one cleared the rule id. *)
Theorem delete_twice env1 env2 (db : Emails) i :
  let once := (handleDelete env1 i db).2 in
  (handleDelete env2 i once).2 = once ∧
  calls env2 (OpDelete i) once = [].
Proof.
  unfold handleDelete, sql_mark_deleted; cbn [snd]. split.
  - rewrite alter_alter_eq. apply alter_ext. intros r _. apply set_deleted_idem.
  - cbn [calls]. rewrite lookup_alter_eq. by destruct (db !! i).
Qed.

(** X12.  Renewals add up: after [n] calls of [handleRenew] on an
    ['active'] row whose expiry is [t], the expiry is [t] plus [n] hours
    and nothing else has changed.  The clock plays no part: the hour is
    counted from the stored expiry, not from the time of the call. *)
Theorem renew_adds_up env n (db : Emails) i r t :
  db !! i = Some r →
  status r = "active" →
  expires_at r = Some t →
  Nat.iter n (λ d, (handleRenew env i d).2) db !! i =
    Some {| alias := alias r; rule_id := rule_id r; created_at := created_at r;
            expires_at := Some (t + Z.of_nat n * 3600); status := "active" |}.
Proof.
  intros Hi Hs Ht. induction n as [| n IH].
  - cbn. rewrite Hi, Z.add_0_r, <- Ht, <- Hs. by destruct r.
  - rewrite Nat.iter_succ. unfold handleRenew at 1. cbn [snd].
    erewrite renew_active; [| exact IH | done].
    unfold plus_one_hour, hour. cbn. do 3 f_equal. lia.
Qed.

Lemma renew_adds_up_witness :
  Nat.iter 3 (λ d, (handleRenew (sample_env reply_timeout 0) 1 d).2) db4 !! 1 =
    Some {| alias := "dkry5cjq@mail.test"; rule_id := "rule-1"; created_at := 1000;
            expires_at := Some 15400; status := "active" |}.
Proof.
  exact (renew_adds_up (sample_env reply_timeout 0) 3 db4 1 row1 4600
           eq_refl eq_refl eq_refl).
Defined.





(** ** The sweeper over time *)

Lemma checkExpiredEmails_clock env env' (db : Emails) :
  sql_now env = sql_now env' → checkExpiredEmails env db = checkExpiredEmails env' db.
Proof.
  intros E. apply map_eq. intros i. by rewrite !lookup_checkExpiredEmails, E.
Qed.


Lemma tick_before_tick env1 env2 (db : Emails) :
  sql_now env2 ≤ sql_now env1 →
  checkExpiredEmails env2 (checkExpiredEmails env1 db) = checkExpiredEmails env1 db.
Proof.
  intros Hle. apply map_eq. intros i. rewrite !lookup_checkExpiredEmails.
  destruct (db !! i) as [r |]; [| done]. cbn. f_equal.
  destruct (decide (expired_active (sql_now env1) (i, r))) as [[Hs Hb] | H1].
  - by rewrite decide_False by (intros [? _]; done).
  - rewrite decide_False; [done |]. intros [Hs Hb]. apply H1. split; [done |].
    cbn in *. destruct (expires_at r); cbn in *; [lia | done].
Qed.





(** X17.  The sweeper only ever takes ['active'] rows with a stored
    expiry: a row that is not ['active'] (a disabled or deleted alias), or
    that has no stored expiry, is left exactly as it is by any number of
    ticks, whatever their clocks. *)
Theorem worker_skips_row ticks (db : Emails) i r :
  db !! i = Some r →
  status r ≠ "active" ∨ expires_at r = None →
  startCleanupWorker ticks db !! i = Some r.
Proof.
  intros Hi Hr. revert db Hi. induction ticks as [| e ticks IH]; intros db Hi; [done |].
  change (startCleanupWorker (e :: ticks) db)
    with (startCleanupWorker ticks (checkExpiredEmails e db)).
  apply IH. rewrite lookup_checkExpiredEmails, Hi. cbn.
  rewrite decide_False; [done |]. intros [Hs Hb]. cbn in *.
  destruct Hr as [Hr | Hr]; [done |]. by rewrite Hr in Hb.
Qed.

Lemma worker_skips_row_witness :
  startCleanupWorker [sample_env reply_timeout 9000; sample_env reply_timeout 99000] db4 !! 2
    = Some row2_inactive ∧
  startCleanupWorker [sample_env reply_timeout 9000; sample_env reply_timeout 99000]
    db_legacy !! 7 = Some row_legacy.
Proof.
  split.
  - apply (worker_skips_row _ db4 2 row2_inactive eq_refl). left. discriminate.
  - apply (worker_skips_row _ db_legacy 7 row_legacy eq_refl). by right.
Defined.

(** ** The requests of the sweeper *)



Example tick_requests_db4 :
  calls (sample_env reply_timeout 5000) OpTick db4
  = [ mkCall "DELETE" "https://api.cloudflare.com/client/v4/zones//email/routing/rules/rule-1" None ] ∧
  calls (sample_env reply_timeout 5000) OpTick db1_deleted = [].
Proof. split; reflexivity. Qed.

(** ** What is sent and what is stored *)

(** X19.  A toggle that is not answered with an error sent one request: a
    PATCH for the rule id of the row, with an [enabled] flag that
    Cloudflare accepted.  The status stored afterwards agrees with that
    flag, ['active'] for [true] and ['inactive'] for [false]; the flag is
    [false] exactly when the row was ['active'], and the other columns are
    as they were. *)
Theorem toggle_agrees_with_cloudflare env (db : Emails) i r :
  db !! i = Some r →
  is_error (handleToggle env i db).1 = false →
  ∃ enabled : bool,
    calls env (OpToggle i) db = [update_call env (rule_id r) enabled] ∧
    (answer env (update_call env (rule_id r) enabled)).2 = None ∧
    (enabled = false ↔ status r = "active") ∧
    (handleToggle env i db).2 !! i =
      Some {| alias := alias r; rule_id := rule_id r; created_at := created_at r;
              expires_at := expires_at r;
              status := if enabled then "active" else "inactive" |}.
Proof.
  intros Hi. unfold handleToggle. cbn [calls]. rewrite Hi. unfold toggle_enables.
  destruct (decide (status r = "active")) as [Hs | Hs];
    destruct (updateCFRule _ _ _) eqn:Hu; cbn [fst snd is_error]; try discriminate;
    intros _; eexists; (split; [reflexivity |]); (split; [exact Hu |]);
    (split; [by split |]); unfold sql_update_status; by rewrite lookup_alter_eq, Hi.
Qed.

Lemma toggle_agrees_with_cloudflare_witness :
  ∃ enabled : bool,
    calls (sample_env (reply_created "rule-2") 0) (OpToggle 2) db4
      = [update_call (sample_env (reply_created "rule-2") 0) "rule-2" enabled] ∧
    (answer (sample_env (reply_created "rule-2") 0)
       (update_call (sample_env (reply_created "rule-2") 0) "rule-2" enabled)).2 = None ∧
    (enabled = false ↔ status row2_inactive = "active") ∧
    (handleToggle (sample_env (reply_created "rule-2") 0) 2 db4).2 !! 2 =
      Some {| alias := "zzzzzzzz@mail.test"; rule_id := "rule-2"; created_at := 1500;
              expires_at := Some 5100;
              status := if enabled then "active" else "inactive" |}.
Proof.
  exact (toggle_agrees_with_cloudflare (sample_env (reply_created "rule-2") 0)
           db4 2 row2_inactive eq_refl eq_refl).
Defined.

(** X20.  A generate that is not answered with an error sent one request:
    a POST to the rules of the zone that creates an enabled rule matching
    mail to the new address literally and forwarding it to
    [CF_DESTINATION_EMAIL].  The address in that request is the [alias] of
    the new row, and the id that the request returned is its [rule_id]. *)
Theorem generate_stores_what_it_sent env method (db : Emails) :
  is_error (handleGenerate env method db).1 = false →
  ∃ row req,
    (handleGenerate env method db).2 !! next_id db = Some row ∧
    calls env (OpGenerate method) db
      = [mkCall "POST" (rules_url env) (Some (RuleBody req))] ∧
    Matchers req = [mkMatcher "literal" "to" (alias row)] ∧
    Actions req = [mkAction "forward" [getenv env "CF_DESTINATION_EMAIL"]] ∧
    Enabled req = true ∧
    answer env (mkCall "POST" (rules_url env) (Some (RuleBody req)))
      = (rule_id row, None).
Proof.
  unfold handleGenerate. cbn [calls].
  destruct (decide (method ≠ "POST")) as [Hm | Hm]; [discriminate |].
  destruct (createCFRule env (new_address env) true) as [ruleID [err |]] eqn:E;
    [discriminate |].
  intros _. cbn [snd]. unfold sql_insert. rewrite lookup_insert_eq.
  eexists _, _. split; [reflexivity |]. split; [reflexivity |].
  cbn -[new_address]. repeat split. exact E.
Qed.

Lemma generate_stores_what_it_sent_witness :
  let env := sample_env (reply_created "rule-9") 3000 in
  ∃ row req,
    (handleGenerate env "POST" db4).2 !! next_id db4 = Some row ∧
    calls env (OpGenerate "POST") db4
      = [mkCall "POST" (rules_url env) (Some (RuleBody req))] ∧
    Matchers req = [mkMatcher "literal" "to" (alias row)] ∧
    Actions req = [mkAction "forward" [getenv env "CF_DESTINATION_EMAIL"]] ∧
    Enabled req = true ∧
    answer env (mkCall "POST" (rules_url env) (Some (RuleBody req)))
      = (rule_id row, None).
Proof.
  exact (generate_stores_what_it_sent (sample_env (reply_created "rule-9") 3000)
           "POST" db4 eq_refl).
Defined.

(** X21.  Recreate replaces the rule without removing the old one.  For a
    stored row of any status, when [createCFRule] succeeds for its address
    with [ruleID], [handleRecreate] answers with the redirect, the row
    becomes ['active'] with [ruleID] and with [time.Now()] plus 3600 as
    expiry, and the only request sent is the POST that creates the new
    rule: no DELETE goes out for the rule id that the row held. *)
Theorem recreate_replaces_rule env (db : Emails) i r ruleID :
  db !! i = Some r →
  createCFRule env (alias r) true = (ruleID, None) →
  (handleRecreate env i db).1 = Redirect "/" 303 ∧
  (handleRecreate env i db).2 !! i =
    Some {| alias := alias r; rule_id := ruleID; created_at := created_at r;
            expires_at := Some (time_now env + 3600); status := "active" |} ∧
  (∀ j, j ≠ i → (handleRecreate env i db).2 !! j = db !! j) ∧
  calls env (OpRecreate i) db = [create_call env (alias r) true].
Proof.
  intros Hi Hcall. unfold handleRecreate. cbn [calls]. rewrite Hi.
  cbn [from_option]. rewrite Hcall. cbn [fst snd]. unfold sql_recreate.
  split; [done |]. split; [by rewrite lookup_alter_eq, Hi |].
  split; [| done]. intros j Hj. by rewrite lookup_alter_ne.
Qed.

Lemma recreate_replaces_rule_witness :
  (handleRecreate (sample_env (reply_created "rule-6") 7000) 3 db4).2 !! 3 =
    Some {| alias := "aaaaaaaa@mail.test"; rule_id := "rule-6"; created_at := 2000;
            expires_at := Some 10600; status := "active" |}.
Proof.
  apply (recreate_replaces_rule (sample_env (reply_created "rule-6") 7000)
           db4 3 row3 "rule-6" eq_refl eq_refl).
Defined.

(** ** Requests for an id that is not stored *)

(** X22.  For an id that is no key of the table, [handleToggle] answers
    with status 500 and the no-rows error of its [SELECT], and sends
    nothing.  [handleRecreate] does not notice: it asks Cloudflare to
    create a rule for the empty address, answers with the redirect when
    that succeeds and with status 500 when it fails.  Neither changes the
    table. *)
Theorem toggle_recreate_unknown_id env (db : Emails) i :
  db !! i = None →
  handleToggle env i db = (HttpError "" (Some ErrNoRows) 500, db) ∧
  calls env (OpToggle i) db = [] ∧
  (handleRecreate env i db).2 = db ∧
  calls env (OpRecreate i) db = [create_call env "" true] ∧
  (handleRecreate env i db).1 =
    match (createCFRule env "" true).2 with
    | None => Redirect "/" 303
    | Some err => HttpError "Erro ao recriar: " (Some err) 500
    end.
Proof.
  intros Hi. unfold handleToggle, handleRecreate. cbn [calls]. rewrite Hi.
  cbn [from_option]. split; [done |]. split; [done |].
  destruct (createCFRule env "" true) as [ruleID [err |]]; cbn [fst snd];
    repeat split; try done.
  unfold sql_recreate. by apply alter_id'.
Qed.

Lemma toggle_recreate_unknown_id_witness :
  handleToggle (sample_env (reply_created "rule-6") 7000) 42 db4
    = (HttpError "" (Some ErrNoRows) 500, db4) ∧
  handleRecreate (sample_env (reply_created "rule-6") 7000) 42 db4
    = (Redirect "/" 303, db4).
Proof.
  destruct (toggle_recreate_unknown_id (sample_env (reply_created "rule-6") 7000)
              db4 42 eq_refl) as (Ht & _ & Hr & _ & Hresp).
  split; [exact Ht |].
  apply injective_projections; [exact Hresp | exact Hr].
Defined.

(** ** Responses and writes *)

(** X23.  A request is answered with the redirect to ["/"] (status 303)
    or with an error, and a request that is answered with an error has
    not changed the table. *)
Theorem failed_request_writes_nothing env op (db : Emails) :
  op ≠ OpTick →
  (failed env op db = false ∧ (run env op db).1 = Some (Redirect "/" 303)) ∨
  (failed env op db = true ∧ (run env op db).2 = db).
Proof.
  intros Hop. unfold failed. destruct op as [method | j | j | j | j |];
    cbn [run prod_map fst snd from_option]; [| | | | | done].
  - unfold handleGenerate. case_decide; [by right |].
    destruct (createCFRule _ _ _) as [ruleID [err |]]; [by right | by left].
  - by left.
  - unfold handleToggle. destruct (db !! j) as [r |]; [| by right].
    destruct (decide (status r = "active")), (updateCFRule _ _ _);
      (by right) || (by left).
  - by left.
  - unfold handleRecreate.
    destruct (createCFRule _ _ _) as [ruleID [err |]]; [by right | by left].
Qed.

Lemma failed_request_writes_nothing_witness :
  failed (sample_env reply_timeout 0) (OpGenerate "GET") db4 = true ∧
  (run (sample_env reply_timeout 0) (OpGenerate "GET") db4).2 = db4.
Proof.
  destruct (failed_request_writes_nothing (sample_env reply_timeout 0)
              (OpGenerate "GET") db4) as [[Hf _] | H]; [discriminate | | exact H].
  discriminate Hf.
Defined.

(** X24.  Generate, toggle and recreate write only after Cloudflare has
    accepted their request: when one of them has changed the table, it
    sent exactly one request and [callCFAPI] returned no error for it. *)
Theorem write_follows_accepted_request env op (db : Emails) :
  (∃ method, op = OpGenerate method) ∨ (∃ j, op = OpToggle j) ∨ (∃ j, op = OpRecreate j) →
  (run env op db).2 ≠ db →
  ∃ c, calls env op db = [c] ∧ (answer env c).2 = None.
Proof.
  intros Hop. rewrite run_table.
  destruct Hop as [[method ->] | [[j ->] | [j ->]]]; cbn [calls].
  - unfold handleGenerate. case_decide; [done |].
    rewrite createCFRule_answer.
    destruct (answer env _) as [ruleID [err |]] eqn:E; [done |].
    intros _. eexists. split; [reflexivity |]. by rewrite E.
  - unfold handleToggle. destruct (db !! j) as [r |]; [| done].
    unfold toggle_enables.
    destruct (decide (status r = "active")); rewrite updateCFRule_answer;
      destruct (answer env _).2 eqn:E; try done;
      intros _; eexists; (split; [reflexivity | exact E]).
  - unfold handleRecreate. rewrite createCFRule_answer.
    destruct (answer env _) as [ruleID [err |]] eqn:E; [done |].
    intros _. eexists. split; [reflexivity |]. by rewrite E.
Qed.

Lemma write_follows_accepted_request_witness :
  ∃ c, calls (sample_env (reply_created "rule-2") 0) (OpToggle 2) db4 = [c] ∧
       (answer (sample_env (reply_created "rule-2") 0) c).2 = None.
Proof.
  apply (write_follows_accepted_request (sample_env (reply_created "rule-2") 0)
           (OpToggle 2) db4).
  - right. left. by exists 2.
  - vm_compute. discriminate.
Defined.
